(** * BlogForge API: a shallow embedding of [api/index.py]

    The service is one FastAPI module: process-wide configuration read from
    the environment, a prompt template, and the [POST /generate] handler that
    normalises the topic, posts one chat-completion request upstream and maps
    the outcome to an HTTP response.

    Python [str] values are sequences of Unicode code points, dictionaries are
    finite maps, and the handler runs in a small monad that threads the log of
    outbound calls and the raised exception. *)

From Stdlib Require Import NArith ZArith QArith String Ascii List Lia.
From stdpp Require Import gmap strings list fin_maps.

Close Scope Q_scope.
Set Warnings "-register-all".
Local Open Scope list_scope.

(** ** Python strings *)

Module PyStr.

(** A code point, and a [str]: an immutable sequence of code points. *)
Definition char := N.
Definition str := list N.

(** An ASCII literal of the source, as a [str]. *)
Definition lit (s : string) : str := map N_of_ascii (list_ascii_of_string s).
Arguments lit : simpl never.

(** [str.isspace] on one code point: the code points the interpreter treats
    as whitespace (bidirectional type WS, B or S, or category Zs).  These are
    the characters that [str.strip()] removes. *)
Definition isspace (c : char) : bool :=
  ((9 <=? c) && (c <=? 13) || (28 <=? c) && (c <=? 32)
   || (c =? 133) || (c =? 160) || (c =? 5760)
   || (8192 <=? c) && (c <=? 8202)
   || (c =? 8232) || (c =? 8233) || (c =? 8239) || (c =? 8287)
   || (c =? 12288))%N.

(** [s.lstrip()] *)
Fixpoint lstrip (s : str) : str :=
  match s with
  | c :: s' => if isspace c then lstrip s' else s
  | [] => []
  end.

(** [s.rstrip()] *)
Fixpoint rstrip (s : str) : str :=
  match s with
  | c :: s' =>
      match rstrip s' with
      | [] => if isspace c then [] else [c]
      | r => c :: r
      end
  | [] => []
  end.

(** [s.strip()] *)
Definition strip (s : str) : str := rstrip (lstrip s).

(** The lower-case image of one code point, as [str.lower()] computes it.
    ASCII capitals move to their small letters; U+0130 (capital I with dot
    above) is the one code point with a two-point image, small i followed by
    U+0307; U+212A (the Kelvin sign) becomes small k.  No other code point has
    an ASCII code point in its image: the image of any other non-ASCII code
    point consists of non-ASCII code points, and is represented here by the
    code point itself.  The handler only compares [lower] against ASCII
    prefixes, which that representation does not affect. *)
Definition lower_char (c : char) : str :=
  if ((65 <=? c) && (c <=? 90))%N then [(c + 32)%N]
  else if (c =? 304)%N then [105%N; 775%N]
  else if (c =? 8490)%N then [107%N]
  else [c].

(** [s.lower()] *)
Fixpoint lower (s : str) : str :=
  match s with
  | c :: s' => lower_char c ++ lower s'
  | [] => []
  end.

(** [s.startswith(p)] *)
Fixpoint startswith (s p : str) {struct p} : bool :=
  match p, s with
  | [], _ => true
  | _ :: _, [] => false
  | d :: p', c :: s' => (c =? d)%N && startswith s' p'
  end.

(** [s[n:]] for [0 <= n]: past the end the slice is empty. *)
Definition slice_from (n : nat) (s : str) : str := skipn n s.

(** A surrogate code point, U+D800 to U+DFFF.  A [str] may hold one on its
    own (JSON decoding of an escaped one yields it); UTF-8 has no encoding
    for it. *)
Definition surrogate (c : char) : bool :=
  ((55296 <=? c) && (c <=? 57343))%N.

(** [s.encode("utf-8")] succeeds. *)
Definition encodable (s : str) : bool :=
  forallb (fun c => negb (surrogate c)) s.

End PyStr.
Import PyStr.

(** ** Topic normalisation ([generate_blog], the prefix loop) *)

Definition prefixes : list str :=
  [lit "write a blog about"; lit "write blog about"; lit "blog about";
   lit "write about"; lit "blog on"; lit "create a blog about"].

(** The [for p in prefixes: ... break] loop: the first prefix that the
    lower-cased topic starts with is cut off and the rest stripped; later
    prefixes are not looked at. *)
Fixpoint strip_first_prefix (ps : list str) (topic : str) : str :=
  match ps with
  | p :: ps' =>
      if startswith (lower topic) p
      then strip (slice_from (length p) topic)
      else strip_first_prefix ps' topic
  | [] => topic
  end.

Definition normalize_topic (raw : str) : str :=
  strip_first_prefix prefixes (strip raw).

(** An ASCII pattern that does not end in small i: what [lower] can only
    produce from as many code points as the pattern has. *)
Definition plain (p : str) : bool :=
  forallb (fun c => (c <? 128)%N) p && negb (List.last p 0 =? 105)%N.

(** [s] begins, up to case, with [p]: some prefix of [s] has the lower-case
    form of [p]. *)
Definition begins_ci (s p : str) : Prop :=
  exists pre rest, s = pre ++ rest /\ lower pre = lower p.

(** ** Python values, exceptions and results *)

(** The values that JSON decoding produces and that the handler passes on.
    A float is a finite number, an infinity or not-a-number: the decoder
    yields the last two for [Infinity], [-Infinity], [NaN] and for literals
    out of range. *)
Inductive pyval : Type :=
  | PNone
  | PBool (b : bool)
  | PInt (z : Z)
  | PFloat (q : Q)
  | PInf (negative : bool)
  | PNaN
  | PStr (s : str)
  | PList (l : list pyval)
  | PDict (d : gmap str pyval).

(** [type(v).__name__] *)
Definition type_name (v : pyval) : str :=
  match v with
  | PNone => lit "NoneType"
  | PBool _ => lit "bool"
  | PInt _ => lit "int"
  | PFloat _ | PInf _ | PNaN => lit "float"
  | PStr _ => lit "str"
  | PList _ => lit "list"
  | PDict _ => lit "dict"
  end.

(** [json.dumps(v, allow_nan=False)] meets no float it refuses. *)
Fixpoint finite (v : pyval) : bool :=
  match v with
  | PInf _ | PNaN => false
  | PList l => forallb finite l
  | PDict d => map_fold (fun _ x ok => finite x && ok) true d
  | _ => true
  end.

(** Every string of [v], keys included, can be encoded as UTF-8. *)
Fixpoint utf8 (v : pyval) : bool :=
  match v with
  | PStr s => encodable s
  | PList l => forallb utf8 l
  | PDict d => map_fold (fun k x ok => encodable k && utf8 x && ok) true d
  | _ => true
  end.

(** The exceptions the handler raises or can meet.  [TimeoutException] stands
    for [httpx.TimeoutException] and its subclasses, [RequestError] for the
    other transport failures of the client, [JSONDecodeError] for a body that
    is not JSON; the message they were built with is their argument.  The
    errors of a lookup carry what the interpreter words their message from:
    the type of the object, and the index or the attribute asked for.  The
    two errors of rendering a body carry the body. *)
Inductive exn : Type :=
  | HTTPException (status_code : Z) (detail : pyval)
  | TimeoutException (msg : str)
  | RequestError (msg : str)
  | JSONDecodeError (msg : str)
  | KeyError (key : pyval)
  | IndexError (of_type : str)
  | TypeError (of_type : str) (index : pyval)
  | AttributeError (of_type : str) (attr : str)
  | ValueError (body : pyval)
  | UnicodeEncodeError (body : pyval).

Inductive result (A : Type) : Type :=
  | Return (a : A)
  | Raise (e : exn).
Arguments Return {A} a.
Arguments Raise {A} e.

(** [d.get(k, dflt)]: only a dict has the method. *)
Definition py_get (d : pyval) (k : str) (dflt : pyval) : result pyval :=
  match d with
  | PDict m => Return (default dflt (m !! k))
  | _ => Raise (AttributeError (type_name d) (lit "get"))
  end.

(** [d[k]] for a string key [k]. *)
Definition py_getitem (d : pyval) (k : str) : result pyval :=
  match d with
  | PDict m =>
      match m !! k with
      | Some v => Return v
      | None => Raise (KeyError (PStr k))
      end
  | _ => Raise (TypeError (type_name d) (PStr k))
  end.

(** [d[0]]: the first element of a list, the first character of a string; a
    dict decoded from JSON has no integer key. *)
Definition py_getitem0 (d : pyval) : result pyval :=
  match d with
  | PList (x :: _) => Return x
  | PStr (c :: _) => Return (PStr [c])
  | PList [] | PStr [] => Raise (IndexError (type_name d))
  | PDict _ => Raise (KeyError (PInt 0))
  | _ => Raise (TypeError (type_name d) (PInt 0))
  end.

(** ** Configuration *)

Record Config : Type := {
  GROQ_API_KEY : option str;
  GROQ_MODEL : str
}.

(** The module-level reads of [os.environ]. *)
Definition load_config (environ : gmap str str) : Config :=
  {| GROQ_API_KEY := environ !! lit "GROQ_API_KEY";
     GROQ_MODEL := default (lit "llama-3.3-70b-versatile")
                           (environ !! lit "GROQ_MODEL") |}.

Definition GROQ_URL : str :=
  lit "https://api.groq.com/openai/v1/chat/completions".

(** [not GROQ_API_KEY]: [None] and the empty string are false. *)
Definition not_key (k : option str) : bool :=
  match k with
  | Some (_ :: _) => false
  | _ => true
  end.

(** [f"{GROQ_API_KEY}"] *)
Definition format_key (k : option str) : str :=
  match k with
  | Some s => s
  | None => lit "None"
  end.

(** ** The request model and the prompt *)

Module BlogRequest.

Record t : Type := { topic : str; tone : str; length : str }.

Definition tone_default : str := lit "informative and friendly".
Definition length_default : str := lit "1000-1500".

(** Construction from a validated body: [topic] is required, an omitted
    [tone] or [length] takes the default of the class. *)
Definition make (topic : str) (tone length : option str) : t :=
  {| topic := topic;
     tone := default tone_default tone;
     length := default length_default length |}.

End BlogRequest.

Definition quote : str := [34%N].
Definition nl : str := [10%N].

(** The part of the template after the three substituted lines. *)
Definition template_structure : str := lit
"Follow this exact structure:

---
META TITLE: [Write an SEO title 50-60 chars with main keyword]
META DESCRIPTION: [Write a compelling meta description 150-160 chars]
---

# [H1 Main Title - include primary keyword]

[Introduction paragraph - hook the reader, include keyword in first 100 words]

## [H2 - First main section with keyword variation]

[2-3 paragraphs]

## [H2 - Second main section]

[2-3 paragraphs with bullet points if helpful]

## [H2 - Third main section]

[2-3 paragraphs]

## [H2 - Fourth main section or Tips/Best Practices]

[2-3 paragraphs or numbered list]

## Frequently Asked Questions

**Q: [Relevant question 1]**
A: [Clear answer]

**Q: [Relevant question 2]**
A: [Clear answer]

**Q: [Relevant question 3]**
A: [Clear answer]

## Conclusion

[Wrap up with key takeaways and a call to action]

SEO Rules: 1-2% keyword density, use LSI/related terms naturally, short paragraphs, transition words, no keyword stuffing.".

Definition build_prompt (topic tone length : str) : str :=
  lit "Write a complete, SEO-optimized blog post about: "
    ++ quote ++ topic ++ quote ++ nl
    ++ nl
    ++ lit "TONE: " ++ tone ++ nl
    ++ lit "TARGET LENGTH: " ++ length ++ lit " words" ++ nl
    ++ nl
    ++ template_structure.

(** ** Routes without effects *)

Definition root : gmap str pyval :=
  {[ lit "status" := PStr (lit "BlogForge API is running") ]}.

Definition health (cfg : Config) : gmap str pyval :=
  <[ lit "status" := PStr (lit "ok") ]>
    {[ lit "model" := PStr (GROQ_MODEL cfg) ]}.

(** ** The outbound call *)

Record Message : Type := { role : str; content : str }.

(** The [payload] dict: its four keys are the four fields. *)
Record Payload : Type := {
  model : str;
  messages : list Message;
  max_tokens : Z;
  temperature : Q
}.

(** One [client.post(url, json=..., headers=...)] on a client built with
    [timeout=...]. *)
Record OutboundCall : Type := {
  call_timeout : Q;
  call_url : str;
  call_json : Payload;
  call_headers : gmap str str
}.

(** What the handler reads of an [httpx.Response]: the status code and the
    outcome of [response.json()]. *)
Record Response : Type := {
  status_code : Z;
  json : result pyval
}.

(** What the handler returns on success. *)
Record JSONResponse : Type := {
  json_content : gmap str pyval;
  json_headers : gmap str str
}.

(** What the caller receives. *)
Record HttpResponse : Type := {
  http_status : Z;
  http_body : pyval;
  http_headers : gmap str str
}.

(** The rendering of a JSON body, done when the response object is built:
    [json.dumps(content, ensure_ascii=False, allow_nan=False, ...)] raises
    [ValueError] on a float that is not finite, and [.encode("utf-8")] after
    it raises [UnicodeEncodeError] on a lone surrogate. *)
Definition render (content : gmap str pyval) : result unit :=
  if negb (finite (PDict content)) then Raise (ValueError (PDict content))
  else if negb (utf8 (PDict content))
       then Raise (UnicodeEncodeError (PDict content))
  else Return tt.

(** [JSONResponse(content=..., headers=...)] *)
Definition new_JSONResponse (content : gmap str pyval)
    (headers : gmap str str) : result JSONResponse :=
  match render content with
  | Return _ => Return {| json_content := content; json_headers := headers |}
  | Raise e => Raise e
  end.

Arguments render : simpl never.
Arguments new_JSONResponse : simpl never.

(** ** The handler monad: the log of outbound calls and the raised exception *)

Definition M (A : Type) : Type :=
  list OutboundCall -> result A * list OutboundCall.

Definition ret {A} (a : A) : M A := fun log => (Return a, log).

Definition raise {A} (e : exn) : M A := fun log => (Raise e, log).

Definition bind {A B} (m : M A) (k : A -> M B) : M B :=
  fun log =>
    match m log with
    | (Return a, log') => k a log'
    | (Raise e, log') => (Raise e, log')
    end.

(** A pure step that may raise. *)
Definition lift {A} (r : result A) : M A := fun log => (r, log).

(** [try: body / except ... as e: handler e]; what the body logged stays. *)
Definition try_except {A} (body : M A) (handler : exn -> M A) : M A :=
  fun log =>
    match body log with
    | (Return a, log') => (Return a, log')
    | (Raise e, log') => handler e log'
    end.

Declare Scope handler_scope.
Delimit Scope handler_scope with handler.
Notation "x <- m ;; k" := (bind m (fun x => k))
  (at level 100, m at next level, right associativity) : handler_scope.

Section Handler.

(** The interpreter's [str(e)] of an exception. *)
Variable py_str : exn -> str.

(** The network and the upstream service: the outcome of the [n]-th outbound
    call of the request, a response or a raised transport exception. *)
Variable upstream : nat -> OutboundCall -> result Response.

(** The process-wide configuration. *)
Variable cfg : Config.

(** [async with httpx.AsyncClient(timeout=t) as client: await client.post(...)] *)
Definition client_post (t : Q) (url : str) (payload : Payload)
    (headers : gmap str str) : M Response :=
  fun log =>
    let call := {| call_timeout := t; call_url := url;
                   call_json := payload; call_headers := headers |} in
    (upstream (List.length log) call, log ++ [call]).

Definition system_message : Message :=
  {| role := lit "system";
     content := lit "You are a professional SEO content writer with 10+ years of experience creating blogs that rank on Google." |}.

(** The [payload] and [headers] dicts of the handler. *)
Definition payload (prompt : str) : Payload :=
  {| model := GROQ_MODEL cfg;
     messages := [system_message;
                  {| role := lit "user"; content := prompt |}];
     max_tokens := 3000;
     temperature := 0.75%Q |}.

Definition headers : gmap str str :=
  <[ lit "Authorization" := lit "Bearer " ++ format_key (GROQ_API_KEY cfg) ]>
    {[ lit "Content-Type" := lit "application/json" ]}.

Definition generate_blog (req : BlogRequest.t) : M JSONResponse :=
  if not_key (GROQ_API_KEY cfg) then
    raise (HTTPException 500 (PStr (lit "API key not configured on server")))
  else
    let topic := normalize_topic (BlogRequest.topic req) in
    let prompt :=
      build_prompt topic (BlogRequest.tone req) (BlogRequest.length req) in
    let payload := payload prompt in
    let headers := headers in
    try_except
      (response <- client_post 60.0%Q GROQ_URL payload headers ;;
       data <- lift (json response) ;;
       if negb (status_code response =? 200)%Z then
         err <- lift (py_get data (lit "error") (PDict ∅)) ;;
         message <- lift (py_get err (lit "message")
                            (PStr (lit "Groq API error"))) ;;
         raise (HTTPException (status_code response) message)
       else
         choices <- lift (py_getitem data (lit "choices")) ;;
         choice <- lift (py_getitem0 choices) ;;
         msg <- lift (py_getitem choice (lit "message")) ;;
         text <- lift (py_getitem msg (lit "content")) ;;
         lift (new_JSONResponse
                 (<[ lit "content" := text ]> {[ lit "topic" := PStr topic ]})
                 {[ lit "Access-Control-Allow-Origin" := lit "*" ]}))%handler
      (fun e =>
         match e with
         | TimeoutException _ =>
             raise (HTTPException 504
                      (PStr (lit "Request timed out. Please try again.")))
         | _ => raise (HTTPException 500 (PStr (py_str e)))
         end).

(** The framework's side of the route: a returned [JSONResponse] is sent with
    status 200, a raised [HTTPException] becomes a response with its status
    code and the body [{"detail": detail}], anything else the server's plain
    500. *)
Definition respond (r : result JSONResponse) : HttpResponse :=
  match r with
  | Return j =>
      {| http_status := 200; http_body := PDict (json_content j);
         http_headers := json_headers j |}
  | Raise (HTTPException sc d) =>
      {| http_status := sc; http_body := PDict {[ lit "detail" := d ]};
         http_headers := ∅ |}
  | Raise _ =>
      {| http_status := 500; http_body := PStr (lit "Internal Server Error");
         http_headers := ∅ |}
  end.

(** [POST /generate]: the response sent and the outbound calls made. *)
Definition post_generate (req : BlogRequest.t)
    : HttpResponse * list OutboundCall :=
  let '(r, log) := generate_blog req [] in (respond r, log).

(** The one call a request with a configured key is expected to put on the
    wire; the properties below are stated with it. *)
Definition issued_call (req : BlogRequest.t) : OutboundCall :=
  {| call_timeout := 60.0%Q;
     call_url := GROQ_URL;
     call_json :=
       payload (build_prompt (normalize_topic (BlogRequest.topic req))
                  (BlogRequest.tone req) (BlogRequest.length req));
     call_headers := headers |}.

End Handler.

(** ** Sample configurations, requests and upstream behaviours *)

Definition sample_environ : gmap str str :=
  {[ lit "GROQ_API_KEY" := lit "gsk_test" ]}.

Definition sample_cfg : Config := load_config sample_environ.

Definition sample_req : BlogRequest.t :=
  BlogRequest.make (lit "Write a blog about remote work productivity")
    None None.

Definition blank_req : BlogRequest.t :=
  BlogRequest.make (lit "   ") None None.

(** A [str()] for the samples: the message for the exceptions that carry
    one, the class name otherwise. *)
Definition sample_str (e : exn) : str :=
  match e with
  | HTTPException _ _ => lit "HTTPException"
  | TimeoutException m | RequestError m | JSONDecodeError m => m
  | KeyError _ => lit "KeyError"
  | IndexError t => t ++ lit " index out of range"
  | TypeError t _ => lit "TypeError on " ++ t
  | AttributeError t a =>
      lit "'" ++ t ++ lit "' object has no attribute '" ++ a ++ lit "'"
  | ValueError _ => lit "Out of range float values are not JSON compliant"
  | UnicodeEncodeError _ => lit "surrogates not allowed"
  end.

(** Upstream answers 429 with an error message. *)
Definition upstream_429 (n : nat) (c : OutboundCall) : result Response :=
  Return {| status_code := 429;
            json := Return (PDict {[ lit "error" :=
                      PDict {[ lit "message" :=
                        PStr (lit "Rate limit reached") ]} ]}) |}.

(** Upstream answers 200 with one completion. *)
Definition upstream_ok (n : nat) (c : OutboundCall) : result Response :=
  Return {| status_code := 200;
            json := Return (PDict {[ lit "choices" :=
                      PList [PDict {[ lit "message" :=
                        PDict {[ lit "content" :=
                          PStr (lit "# Remote work") ]} ]}] ]}) |}.

(** The call runs into the client's timeout. *)
Definition upstream_timeout (n : nat) (c : OutboundCall) : result Response :=
  Raise (TimeoutException (lit "timed out")).

(** Upstream answers 502 with a body that is not JSON. *)
Definition upstream_html (n : nat) (c : OutboundCall) : result Response :=
  Return {| status_code := 502;
            json := Raise (JSONDecodeError
                      (lit "Expecting value: line 1 column 1 (char 0)")) |}.


(** ** The remaining routes and the completion lookup *)

(** [OPTIONS /generate]: an empty JSON object with the preflight headers. *)
Definition options_generate : JSONResponse :=
  {| json_content := ∅;
     json_headers :=
       <[ lit "Access-Control-Allow-Origin" := lit "*" ]>
         (<[ lit "Access-Control-Allow-Methods" := lit "POST, OPTIONS" ]>
            {[ lit "Access-Control-Allow-Headers" := lit "Content-Type" ]}) |}.

(** [data["choices"][0]["message"]["content"]], the lookup of the success
    path, with the exception of the first subscript that fails. *)
Definition completion_text (data : pyval) : result pyval :=
  match py_getitem data (lit "choices") with
  | Return choices =>
      match py_getitem0 choices with
      | Return choice =>
          match py_getitem choice (lit "message") with
          | Return msg => py_getitem msg (lit "content")
          | Raise e => Raise e
          end
      | Raise e => Raise e
      end
  | Raise e => Raise e
  end.

(** The connection to upstream fails. *)
Definition upstream_down (n : nat) (c : OutboundCall) : result Response :=
  Raise (RequestError (lit "All connection attempts failed")).

(** Upstream answers 200 with an object that has no choices. *)
Definition upstream_no_choices (n : nat) (c : OutboundCall)
    : result Response :=
  Return {| status_code := 200;
            json := Return (PDict {[ lit "id" := PStr (lit "cmpl-1") ]}) |}.

(** Upstream answers 200 with an empty list of choices. *)
Definition upstream_empty_choices (n : nat) (c : OutboundCall)
    : result Response :=
  Return {| status_code := 200;
            json := Return (PDict {[ lit "choices" := PList [] ]}) |}.

(** Upstream answers 401 with the error given as a plain string. *)
Definition upstream_error_string (n : nat) (c : OutboundCall)
    : result Response :=
  Return {| status_code := 401;
            json := Return (PDict {[ lit "error" :=
                      PStr (lit "invalid api key") ]}) |}.

(** The two shapes of an answer: the error body that the framework builds
    from an [HTTPException], and the body of a successful generation. *)
Definition error_response (sc : Z) (detail : pyval) : HttpResponse :=
  {| http_status := sc;
     http_body := PDict {[ lit "detail" := detail ]};
     http_headers := ∅ |}.

Definition success_response (text : pyval) (topic : str) : HttpResponse :=
  {| http_status := 200;
     http_body :=
       PDict (<[ lit "content" := text ]> {[ lit "topic" := PStr topic ]});
     http_headers := {[ lit "Access-Control-Allow-Origin" := lit "*" ]} |}.

(** What the [except] clauses make of an exception. *)
Definition caught (py_str : exn -> str) (e : exn) : HttpResponse :=
  match e with
  | TimeoutException _ =>
      error_response 504 (PStr (lit "Request timed out. Please try again."))
  | _ => error_response 500 (PStr (py_str e))
  end.

(** The exception built for a non-200 answer, or the one met while reading
    the error message. *)
Definition rejection (sc : Z) (data : pyval) : exn :=
  match py_get data (lit "error") (PDict ∅) with
  | Return err =>
      match py_get err (lit "message") (PStr (lit "Groq API error")) with
      | Return message => HTTPException sc message
      | Raise e => e
      end
  | Raise e => e
  end.

(** What a failing subscript raises. *)
Definition lookup_error (e : exn) : Prop :=
  (exists k, e = KeyError k) \/ (exists t, e = IndexError t)
  \/ (exists t i, e = TypeError t i).

(** * Properties *)

(** ** The scenario of the specification *)

Example normalize_scenario :
  normalize_topic (lit "Write a blog about remote work productivity")
  = lit "remote work productivity".
Proof. reflexivity. Qed.

Example normalize_once :
  normalize_topic (lit "  blog about   Blog On tea ")
  = lit "Blog On tea".
Proof. reflexivity. Qed.

(** ** Stripping *)

Section Stripping.

Lemma rstrip_idem (s : str) : rstrip (rstrip s) = rstrip s.
Proof.
  induction s as [|c s IH]; [reflexivity|].
  cbn [rstrip]. destruct (rstrip s) as [|x r] eqn:E.
  - destruct (isspace c) eqn:Ec; cbn [rstrip]; [reflexivity|].
    now rewrite Ec.
  - cbn [rstrip] in *. now rewrite IH.
Qed.

(** A string without trailing whitespace keeps that property in every
    suffix. *)
Lemma rstrip_fixed_suffix (a b : str) :
  rstrip (a ++ b) = a ++ b -> rstrip b = b.
Proof.
  induction a as [|c a IH]; [trivial|].
  cbn [app rstrip]. destruct (rstrip (a ++ b)) as [|x r] eqn:E.
  - destruct (isspace c); [discriminate|].
    intros H. injection H as H. symmetry in H.
    apply app_eq_nil in H as [_ ->]. reflexivity.
  - intros H. injection H as H. apply IH. exact H.
Qed.

Lemma lstrip_suffix (s : str) : exists a, s = a ++ lstrip s.
Proof.
  induction s as [|c s [a IH]]; [now exists []|].
  cbn [lstrip]. destruct (isspace c).
  - exists (c :: a). cbn [app]. now rewrite <- IH.
  - now exists [].
Qed.

Lemma lstrip_snoc (a : str) (c : char) :
  lstrip (a ++ [c]) =
    match lstrip a with
    | [] => if isspace c then [] else [c]
    | r => r ++ [c]
    end.
Proof.
  induction a as [|x a IH]; [reflexivity|].
  cbn [app lstrip]. destruct (isspace x); [exact IH | reflexivity].
Qed.

(** [rstrip] is [lstrip] read from the right. *)
Lemma rstrip_rev (s : str) : rstrip s = rev (lstrip (rev s)).
Proof.
  induction s as [|c s IH]; [reflexivity|].
  cbn [rstrip rev]. rewrite lstrip_snoc, IH.
  destruct (lstrip (rev s)) as [|y r]; cbn [rev].
  - now destruct (isspace c).
  - rewrite rev_app_distr. cbn [rev app].
    now destruct (rev r ++ [y]) eqn:E; [apply app_eq_nil in E as [_ E]|].
Qed.

Lemma strip_no_trailing (s : str) : rstrip (strip s) = strip s.
Proof. apply rstrip_idem. Qed.

(** On a suffix of a stripped string, [strip] only has leading whitespace
    left to remove. *)
Lemma strip_of_suffix (pre rest : str) :
  rstrip (pre ++ rest) = pre ++ rest -> strip rest = lstrip rest.
Proof.
  intros H. apply rstrip_fixed_suffix in H.
  destruct (lstrip_suffix rest) as [a Ha].
  unfold strip. apply (rstrip_fixed_suffix a). now rewrite <- Ha.
Qed.

Lemma lstrip_head (s : str) :
  match lstrip s with c :: _ => isspace c = false | [] => True end.
Proof.
  induction s as [|c s IH]; [exact I|].
  cbn [lstrip]. destruct (isspace c) eqn:E; [exact IH | exact E].
Qed.

End Stripping.

(** ** Lower-casing and prefixes *)

Section Prefixes.

Lemma prefixes_plain : Forall (fun p => plain p = true) prefixes.
Proof. repeat constructor. Qed.

Lemma prefixes_lower : Forall (fun p => lower p = p) prefixes.
Proof. repeat constructor. Qed.

Lemma plain_tail (d : char) (p : str) : plain (d :: p) = true -> plain p = true.
Proof.
  destruct p as [|d' p]; [reflexivity|].
  unfold plain. cbn [forallb List.last].
  rewrite !andb_true_iff. tauto.
Qed.

Lemma plain_head (d : char) (p : str) : plain (d :: p) = true -> (d < 128)%N.
Proof.
  unfold plain. cbn [forallb]. rewrite !andb_true_iff.
  intros [[H _] _]. now apply N.ltb_lt.
Qed.

Lemma lower_char_cases (c : char) :
  (exists x, lower_char c = [x]) \/ lower_char c = [105%N; 775%N].
Proof.
  unfold lower_char.
  destruct ((65 <=? c) && (c <=? 90))%N; [left; eauto|].
  destruct (c =? 304)%N; [now right|].
  destruct (c =? 8490)%N; left; eauto.
Qed.

Lemma lower_app (a b : str) : lower (a ++ b) = lower a ++ lower b.
Proof.
  induction a as [|c a IH]; [reflexivity|].
  cbn [app lower]. now rewrite IH, app_assoc.
Qed.

Lemma startswith_app (p q : str) : startswith (p ++ q) p = true.
Proof.
  induction p as [|d p IH]; [reflexivity|].
  cbn [app startswith]. now rewrite N.eqb_refl, IH.
Qed.

Lemma startswith_cons (c d : char) (s p : str) :
  startswith (c :: s) (d :: p) = true -> c = d /\ startswith s p = true.
Proof.
  cbn [startswith]. rewrite andb_true_iff, N.eqb_eq. trivial.
Qed.

(** When the lower-cased string starts with a plain pattern, the match comes
    from a prefix of the string itself. *)
Lemma startswith_lower_split (s : str) :
  forall p, plain p = true -> startswith (lower s) p = true ->
  exists pre rest, s = pre ++ rest /\ lower pre = p.
Proof.
  induction s as [|c s IH]; intros p Hp H.
  - destruct p; [now exists [], [] | discriminate].
  - destruct p as [|d p]; [now exists [], (c :: s)|].
    cbn [lower] in H.
    destruct (lower_char_cases c) as [[x Hx]|Hx]; rewrite Hx in H.
    + apply startswith_cons in H as [-> H].
      destruct (IH p (plain_tail _ _ Hp) H) as (pre & rest & -> & Hl).
      exists (c :: pre), rest. split; [reflexivity|].
      cbn [lower]. now rewrite Hx, Hl.
    + apply startswith_cons in H as [<- H].
      destruct p as [|d' p]; [discriminate Hp|].
      apply startswith_cons in H as [<- _].
      apply plain_tail, plain_head in Hp. now apply N.ltb_lt in Hp.
Qed.

(** A prefix whose lower-case form is a plain pattern has the pattern's
    length: [topic[len(p):]] cuts exactly the matched code points. *)
Lemma lower_plain_length (pre : str) :
  forall p, plain p = true -> lower pre = p -> length pre = length p.
Proof.
  induction pre as [|c pre IH]; intros p Hp H.
  - now subst.
  - cbn [lower] in H.
    destruct (lower_char_cases c) as [[x Hx]|Hx]; rewrite Hx in H.
    + destruct p as [|d p]; [discriminate|].
      injection H as -> H. cbn [length]. f_equal.
      apply IH; [exact (plain_tail _ _ Hp) | exact H].
    + subst p. apply plain_tail, plain_head in Hp.
      now apply N.ltb_lt in Hp.
Qed.

Lemma begins_ci_startswith (s p : str) :
  plain p = true -> lower p = p ->
  begins_ci s p <-> startswith (lower s) p = true.
Proof.
  intros Hp Hl. unfold begins_ci. rewrite Hl. split.
  - intros (pre & rest & -> & <-). rewrite lower_app. apply startswith_app.
  - now apply startswith_lower_split.
Qed.

(** The loop takes the first matching prefix and nothing after it. *)
Lemma strip_first_prefix_at (s : str) (l1 : list str) :
  forall p l2,
  (forall q, In q l1 -> startswith (lower s) q = false) ->
  startswith (lower s) p = true ->
  strip_first_prefix (l1 ++ p :: l2) s = strip (slice_from (length p) s).
Proof.
  induction l1 as [|q l1 IH]; intros p l2 Hno Hp; cbn [app strip_first_prefix].
  - now rewrite Hp.
  - rewrite (Hno q (or_introl eq_refl)).
    apply IH; [|exact Hp]. intros q' Hq'. apply Hno. now right.
Qed.

Lemma strip_first_prefix_none (s : str) (ps : list str) :
  (forall q, In q ps -> startswith (lower s) q = false) ->
  strip_first_prefix ps s = s.
Proof.
  induction ps as [|q ps IH]; intros Hno; cbn [strip_first_prefix]; [reflexivity|].
  rewrite (Hno q (or_introl eq_refl)). apply IH.
  intros q' Hq'. apply Hno. now right.
Qed.

Lemma not_begins_ci (s p : str) :
  In p prefixes -> ~ begins_ci s p -> startswith (lower s) p = false.
Proof.
  intros Hin Hn. apply not_true_is_false. intros H. apply Hn.
  pose proof prefixes_plain as Hpl. pose proof prefixes_lower as Hlo.
  rewrite List.Forall_forall in Hpl, Hlo.
  apply begins_ci_startswith; auto.
Qed.

End Prefixes.

(** ** Topic normalisation *)

(** C2.  Let [s] be the trimmed topic.  If [s] begins, up to case, with a
    filler prefix [p], and with none of the prefixes listed before [p], then
    the returned topic is [s] without the code points that matched [p] and
    without the whitespace that follows them; nothing else is cut, also when
    the remainder begins with a prefix again.  If [s] begins with none of the
    six prefixes, the returned topic is [s]. *)
Theorem normalize_topic_prefix_spec (raw : str) :
  (forall l1 p l2 pre rest,
      prefixes = l1 ++ p :: l2 ->
      (forall q, In q l1 -> ~ begins_ci (strip raw) q) ->
      strip raw = pre ++ rest ->
      lower pre = lower p ->
      normalize_topic raw = lstrip rest)
  /\ ((forall p, In p prefixes -> ~ begins_ci (strip raw) p) ->
      normalize_topic raw = strip raw).
Proof.
  pose proof prefixes_plain as Hpl. pose proof prefixes_lower as Hlo.
  rewrite List.Forall_forall in Hpl, Hlo.
  split.
  - intros l1 p l2 pre rest Hps Hno Hs Hlow.
    assert (Hin : In p prefixes) by (rewrite Hps; apply in_elt).
    unfold normalize_topic. rewrite Hps.
    rewrite strip_first_prefix_at.
    + rewrite (Hlo p Hin) in Hlow.
      rewrite <- (lower_plain_length pre p (Hpl p Hin) Hlow).
      rewrite Hs. unfold slice_from. rewrite drop_app_length.
      apply (strip_of_suffix pre). rewrite <- Hs. apply strip_no_trailing.
    + intros q Hq. apply not_begins_ci; [|now apply Hno].
      rewrite Hps. apply in_or_app. now left.
    + apply begins_ci_startswith; auto. now exists pre, rest.
  - intros Hno. unfold normalize_topic. apply strip_first_prefix_none.
    intros q Hq. apply not_begins_ci; auto.
Qed.

Lemma normalize_topic_prefix_spec_witness :
  normalize_topic (lit " Blog On   green tea ") = lit "green tea"
  /\ normalize_topic (lit "  why blog about tea ") = lit "why blog about tea".
Proof.
  split.
  - apply (proj1 (normalize_topic_prefix_spec (lit " Blog On   green tea "))
             (firstn 4 prefixes) (lit "blog on") (skipn 5 prefixes)
             (lit "Blog On") (lit "   green tea")).
    + reflexivity.
    + intros q Hq H.
      assert (Hin : In q prefixes) by (simpl in Hq; simpl; tauto).
      pose proof prefixes_plain as Hpl. pose proof prefixes_lower as Hlo.
      rewrite List.Forall_forall in Hpl, Hlo.
      apply begins_ci_startswith in H; auto.
      simpl in Hq. destruct Hq as [<-|[<-|[<-|[<-|[]]]]]; vm_compute in H;
        discriminate H.
    + reflexivity.
    + reflexivity.
  - apply (proj2 (normalize_topic_prefix_spec (lit "  why blog about tea "))).
    intros p Hp H.
    pose proof prefixes_plain as Hpl. pose proof prefixes_lower as Hlo.
    rewrite List.Forall_forall in Hpl, Hlo.
    apply begins_ci_startswith in H; auto.
    simpl in Hp. destruct Hp as [<-|[<-|[<-|[<-|[<-|[<-|[]]]]]]];
      vm_compute in H; discriminate H.
Defined.

(** ** The handler as a table *)

Section HandlerTable.

Variable py_str : exn -> str.
Variable upstream : nat -> OutboundCall -> result Response.
Variable cfg : Config.

#[local] Arguments normalize_topic : simpl never.
#[local] Arguments build_prompt : simpl never.

Lemma py_getitem_raises (d : pyval) (k : str) (e : exn) :
  py_getitem d k = Raise e -> lookup_error e.
Proof.
  unfold py_getitem, lookup_error.
  destruct d; try (intros [= <-]; eauto 6).
  destruct (d !! k); intros [= <-]; eauto.
Qed.

Lemma py_getitem0_raises (d : pyval) (e : exn) :
  py_getitem0 d = Raise e -> lookup_error e.
Proof.
  unfold py_getitem0, lookup_error.
  destruct d as [| | | | | |s|l|]; try (intros [= <-]; eauto 6).
  - destruct s; intros [= <-]; eauto 6.
  - destruct l; intros [= <-]; eauto 6.
Qed.

(** The subscripts of the success path only fail with the errors of a
    lookup. *)
Lemma completion_text_raises (data : pyval) (e : exn) :
  completion_text data = Raise e ->
  (exists k, e = KeyError k) \/ (exists t, e = IndexError t)
  \/ (exists t i, e = TypeError t i).
Proof.
  unfold completion_text.
  destruct (py_getitem data (lit "choices")) as [v1|e1] eqn:E1;
    [|intros [= <-]; exact (py_getitem_raises _ _ _ E1)].
  destruct (py_getitem0 v1) as [v2|e2] eqn:E2;
    [|intros [= <-]; exact (py_getitem0_raises _ _ E2)].
  destruct (py_getitem v2 (lit "message")) as [v3|e3] eqn:E3;
    [|intros [= <-]; exact (py_getitem_raises _ _ _ E3)].
  apply py_getitem_raises.
Qed.

Lemma caught_status (e : exn) :
  http_status (caught py_str e) = 500%Z
  \/ http_status (caught py_str e) = 504%Z.
Proof. destruct e; cbn; auto. Qed.

(** The handler with a key, read as a table over the outcome of the call. *)
Lemma post_with_key (req : BlogRequest.t) :
  not_key (GROQ_API_KEY cfg) = false ->
  post_generate py_str upstream cfg req =
    (match upstream 0 (issued_call cfg req) with
     | Raise e => caught py_str e
     | Return response =>
         match json response with
         | Raise e => caught py_str e
         | Return data =>
             if (status_code response =? 200)%Z then
               match completion_text data with
               | Return text =>
                   let topic := normalize_topic (BlogRequest.topic req) in
                   match render (<[ lit "content" := text ]>
                                   {[ lit "topic" := PStr topic ]}) with
                   | Return _ => success_response text topic
                   | Raise e => caught py_str e
                   end
               | Raise e => caught py_str e
               end
             else caught py_str (rejection (status_code response) data)
         end
     end,
     [issued_call cfg req]).
Proof.
  intros Hk. unfold post_generate, generate_blog. rewrite Hk.
  unfold try_except, bind, client_post, lift, raise, ret.
  cbv zeta. cbn [app List.length]. unfold issued_call.
  destruct (upstream 0 _) as [[sc [data|e]]|e]; cbn;
    [|now destruct e|now destruct e].
  destruct (sc =? 200)%Z; cbn.
  - unfold completion_text.
    destruct (py_getitem data (lit "choices")) as [v1|e]; cbn;
      [|now destruct e].
    destruct (py_getitem0 v1) as [v2|e]; cbn; [|now destruct e].
    destruct (py_getitem v2 (lit "message")) as [v3|e]; cbn;
      [|now destruct e].
    destruct (py_getitem v3 (lit "content")) as [v4|e]; cbn;
      [|now destruct e].
    unfold new_JSONResponse.
    destruct (render _) as [[]|e]; cbn; [reflexivity|now destruct e].
  - unfold rejection.
    destruct (py_get data (lit "error") (PDict ∅)) as [v1|e]; cbn;
      [|now destruct e].
    destruct (py_get v1 (lit "message") (PStr (lit "Groq API error")))
      as [v2|e]; cbn; [reflexivity|now destruct e].
Qed.

End HandlerTable.

(** ** The handler *)

Section HandlerFacts.

Variable py_str : exn -> str.
Variable upstream : nat -> OutboundCall -> result Response.
Variable cfg : Config.

Abbreviation run := (generate_blog py_str upstream cfg).
Abbreviation post := (post_generate py_str upstream cfg).

(** With a key the handler starts with the one outbound call; [with_key]
    brings the goal to the point where its outcome is inspected. *)
Ltac with_key Hk :=
  unfold post_generate, generate_blog; rewrite Hk;
  unfold try_except, bind, client_post, lift, raise, ret;
  cbv zeta; cbn [app List.length].

Ltac answered Hk Hup :=
  with_key Hk; unfold issued_call in Hup; rewrite Hup; cbn.

(** Without a key the handler raises before anything else. *)
Lemma run_without_key (req : BlogRequest.t) :
  not_key (GROQ_API_KEY cfg) = true ->
  run req [] =
    (Raise (HTTPException 500 (PStr (lit "API key not configured on server"))),
     []).
Proof. intros Hk. unfold generate_blog. now rewrite Hk. Qed.

(** The log of a request: empty without a key, the one call with a key. *)
Lemma post_log (req : BlogRequest.t) :
  snd (post req) =
    if not_key (GROQ_API_KEY cfg) then [] else [issued_call cfg req].
Proof.
  destruct (not_key (GROQ_API_KEY cfg)) eqn:Hk.
  - unfold post_generate. now rewrite run_without_key.
  - now rewrite post_with_key.
Qed.

(** The only call a request can make is [issued_call]. *)
Lemma post_calls (req : BlogRequest.t) (call : OutboundCall) :
  In call (snd (post req)) -> call = issued_call cfg req.
Proof.
  rewrite post_log. destruct (not_key (GROQ_API_KEY cfg)); cbn; intuition.
Qed.

(** A non-200 answer with a JSON body: the [HTTPException] raised for it
    inside the [try] is caught by [except Exception]. *)
Lemma rejection_masked (req : BlogRequest.t) (sc : Z) (d e : gmap str pyval)
    (m : pyval) :
  not_key (GROQ_API_KEY cfg) = false ->
  upstream 0 (issued_call cfg req)
    = Return {| status_code := sc; json := Return (PDict d) |} ->
  sc <> 200%Z ->
  d !! lit "error" = Some (PDict e) ->
  e !! lit "message" = Some m ->
  post req =
    ({| http_status := 500;
        http_body :=
          PDict {[ lit "detail" := PStr (py_str (HTTPException sc m)) ]};
        http_headers := ∅ |},
     [issued_call cfg req]).
Proof.
  intros Hk Hup Hsc Hd He. answered Hk Hup.
  apply Z.eqb_neq in Hsc. rewrite Hsc. cbn.
  rewrite Hd. cbn. rewrite He. reflexivity.
Qed.

(** The same with no error object in the body: the generic message is
    built and lost in the same way. *)
Lemma rejection_generic_masked (req : BlogRequest.t) (sc : Z)
    (d : gmap str pyval) :
  not_key (GROQ_API_KEY cfg) = false ->
  upstream 0 (issued_call cfg req)
    = Return {| status_code := sc; json := Return (PDict d) |} ->
  sc <> 200%Z ->
  d !! lit "error" = None ->
  post req =
    ({| http_status := 500;
        http_body :=
          PDict {[ lit "detail" :=
                     PStr (py_str (HTTPException sc
                                     (PStr (lit "Groq API error")))) ]};
        http_headers := ∅ |},
     [issued_call cfg req]).
Proof.
  intros Hk Hup Hsc Hd. answered Hk Hup.
  apply Z.eqb_neq in Hsc. rewrite Hsc. cbn.
  rewrite Hd. reflexivity.
Qed.

(** C3.  When the API key is absent from the environment, every
    [POST /generate] is answered 500 with detail "API key not configured on
    server", and no outbound call is made. *)
Theorem generate_without_key (environ : gmap str str) (req : BlogRequest.t) :
  environ !! lit "GROQ_API_KEY" = None ->
  post_generate py_str upstream (load_config environ) req =
    ({| http_status := 500;
        http_body :=
          PDict {[ lit "detail" :=
                     PStr (lit "API key not configured on server") ]};
        http_headers := ∅ |},
     []).
Proof.
  intros Hk. unfold post_generate, generate_blog, load_config.
  cbn [GROQ_API_KEY]. rewrite Hk. reflexivity.
Qed.

(** C5.  With a key configured, when the outbound call, made on a client
    with a 60 second timeout, ends in the client's timeout exception, the
    response is 504 with detail "Request timed out. Please try again.", and
    that call is the only one made: nothing is retried. *)
Theorem generate_timeout (req : BlogRequest.t) (m : str) :
  not_key (GROQ_API_KEY cfg) = false ->
  upstream 0 (issued_call cfg req) = Raise (TimeoutException m) ->
  post req =
    ({| http_status := 504;
        http_body :=
          PDict {[ lit "detail" :=
                     PStr (lit "Request timed out. Please try again.") ]};
        http_headers := ∅ |},
     [issued_call cfg req])
  /\ call_timeout (issued_call cfg req) = 60.0%Q
  /\ (call_timeout (issued_call cfg req) == 60)%Q.
Proof.
  intros Hk Hup. split; [|split; reflexivity].
  answered Hk Hup. reflexivity.
Qed.

(** C6.  With a key configured, when the body of the upstream response is
    not JSON, the response is 500 with the description of the decoding error
    as detail, whatever the upstream status code. *)
Theorem generate_bad_json (req : BlogRequest.t) (sc : Z) (m : str) :
  not_key (GROQ_API_KEY cfg) = false ->
  upstream 0 (issued_call cfg req)
    = Return {| status_code := sc; json := Raise (JSONDecodeError m) |} ->
  post req =
    ({| http_status := 500;
        http_body :=
          PDict {[ lit "detail" := PStr (py_str (JSONDecodeError m)) ]};
        http_headers := ∅ |},
     [issued_call cfg req]).
Proof.
  intros Hk Hup. answered Hk Hup. reflexivity.
Qed.

(** C7.  A topic that is empty after trimming is not rejected: with a key
    configured the normalised topic is the empty string, the prompt is built
    with it, and the outbound call is issued as for any other topic. *)
Theorem blank_topic_forwarded (req : BlogRequest.t) :
  strip (BlogRequest.topic req) = [] ->
  not_key (GROQ_API_KEY cfg) = false ->
  normalize_topic (BlogRequest.topic req) = []
  /\ snd (post req) = [issued_call cfg req]
  /\ messages (call_json (issued_call cfg req)) =
       [system_message;
        {| role := lit "user";
           content := build_prompt [] (BlogRequest.tone req)
                        (BlogRequest.length req) |}].
Proof.
  intros Hs Hk.
  assert (Hn : normalize_topic (BlogRequest.topic req) = [])
    by (unfold normalize_topic; now rewrite Hs).
  split; [exact Hn|]. split.
  - now rewrite post_log, Hk.
  - unfold issued_call, payload. cbn [call_json messages]. now rewrite Hn.
Qed.

(** C9.  Every outbound call of [POST /generate] carries a payload with
    exactly two messages, first the system message with its fixed text and
    then the user message holding the constructed prompt, with temperature
    0.75, a maximum of 3000 output tokens and the configured model
    identifier. *)
Theorem outbound_payload (req : BlogRequest.t) (call : OutboundCall) :
  In call (snd (post req)) ->
  messages (call_json call) =
    [{| role := lit "system";
        content := lit "You are a professional SEO content writer with 10+ years of experience creating blogs that rank on Google." |};
     {| role := lit "user";
        content := build_prompt (normalize_topic (BlogRequest.topic req))
                     (BlogRequest.tone req) (BlogRequest.length req) |}]
  /\ temperature (call_json call) = 0.75%Q
  /\ max_tokens (call_json call) = 3000%Z
  /\ model (call_json call) = GROQ_MODEL cfg.
Proof.
  intros Hin. apply post_calls in Hin. subst call. now cbn.
Qed.

(** C10.  A request that omits [tone] gets "informative and friendly", a
    request that omits [length] gets "1000-1500", and these are the values
    that stand in the prompt of the outbound call: its tone line reads
    "TONE: informative and friendly", its length line
    "TARGET LENGTH: 1000-1500 words". *)
Theorem request_defaults (topic : str) (tone length : option str) :
  BlogRequest.tone (BlogRequest.make topic None length)
    = lit "informative and friendly"
  /\ BlogRequest.length (BlogRequest.make topic tone None) = lit "1000-1500"
  /\ (forall call,
        In call (snd (post (BlogRequest.make topic None length))) ->
        messages (call_json call) =
          [system_message;
           {| role := lit "user";
              content :=
                lit "Write a complete, SEO-optimized blog post about: "
                  ++ quote ++ normalize_topic topic ++ quote ++ nl
                  ++ nl
                  ++ lit "TONE: informative and friendly" ++ nl
                  ++ lit "TARGET LENGTH: "
                  ++ default (lit "1000-1500") length ++ lit " words" ++ nl
                  ++ nl
                  ++ template_structure |}])
  /\ (forall call,
        In call (snd (post (BlogRequest.make topic tone None))) ->
        messages (call_json call) =
          [system_message;
           {| role := lit "user";
              content :=
                lit "Write a complete, SEO-optimized blog post about: "
                  ++ quote ++ normalize_topic topic ++ quote ++ nl
                  ++ nl
                  ++ lit "TONE: "
                  ++ default (lit "informative and friendly") tone ++ nl
                  ++ lit "TARGET LENGTH: 1000-1500 words" ++ nl
                  ++ nl
                  ++ template_structure |}]).
Proof.
  split; [reflexivity|]. split; [reflexivity|].
  split; intros call Hin; apply post_calls in Hin; subst call; reflexivity.
Qed.

End HandlerFacts.

(** ** The upstream rejection path *)

(** C1.  Upstream answers 429 with the error message "Rate limit reached";
    the caller receives status 500, and the detail is the description of the
    exception that carried the 429, not the upstream message. *)
Theorem rejection_429_answered_500 (py_str : exn -> str) :
  post_generate py_str upstream_429 sample_cfg sample_req =
    ({| http_status := 500;
        http_body :=
          PDict {[ lit "detail" :=
                     PStr (py_str (HTTPException 429
                                     (PStr (lit "Rate limit reached")))) ]};
        http_headers := ∅ |},
     [issued_call sample_cfg sample_req]).
Proof.
  eapply rejection_masked; [reflexivity | reflexivity | discriminate | |];
    reflexivity.
Qed.

(** ** The health route *)

Lemma key_is_not_model : lit "GROQ_API_KEY" <> lit "GROQ_MODEL".
Proof. discriminate. Qed.

(** C8.  [GET /health] returns [{"status": "ok", "model": m}] with [m] the
    model of the environment, or the default when the environment names
    none; removing or setting the API key does not change the answer. *)
Theorem health_always (environ : gmap str str) :
  health (load_config environ) =
    <[ lit "status" := PStr (lit "ok") ]>
      {[ lit "model" :=
           PStr (default (lit "llama-3.3-70b-versatile")
                   (environ !! lit "GROQ_MODEL")) ]}
  /\ health (load_config (delete (lit "GROQ_API_KEY") environ))
     = health (load_config environ)
  /\ (forall k : str,
        health (load_config (<[ lit "GROQ_API_KEY" := k ]> environ))
        = health (load_config environ)).
Proof.
  pose proof key_is_not_model as Hne.
  split; [reflexivity|]. split.
  - unfold health, load_config. cbn [GROQ_MODEL].
    now rewrite lookup_delete_ne.
  - intros k. unfold health, load_config. cbn [GROQ_MODEL].
    now rewrite lookup_insert_ne.
Qed.

(** ** Instances *)

Lemma generate_without_key_witness :
  post_generate sample_str upstream_ok
    (load_config {[ lit "GROQ_MODEL" := lit "llama-3.1-8b-instant" ]})
    sample_req =
    ({| http_status := 500;
        http_body :=
          PDict {[ lit "detail" :=
                     PStr (lit "API key not configured on server") ]};
        http_headers := ∅ |},
     []).
Proof.
  apply (generate_without_key sample_str upstream_ok
           {[ lit "GROQ_MODEL" := lit "llama-3.1-8b-instant" ]} sample_req).
  vm_compute. reflexivity.
Defined.

Lemma generate_timeout_witness :
  post_generate sample_str upstream_timeout sample_cfg sample_req =
    ({| http_status := 504;
        http_body :=
          PDict {[ lit "detail" :=
                     PStr (lit "Request timed out. Please try again.") ]};
        http_headers := ∅ |},
     [issued_call sample_cfg sample_req]).
Proof.
  apply (generate_timeout sample_str upstream_timeout sample_cfg sample_req
           (lit "timed out")).
  - vm_compute. reflexivity.
  - reflexivity.
Defined.

Lemma generate_bad_json_witness :
  post_generate sample_str upstream_html sample_cfg sample_req =
    ({| http_status := 500;
        http_body :=
          PDict {[ lit "detail" :=
                     PStr (lit "Expecting value: line 1 column 1 (char 0)") ]};
        http_headers := ∅ |},
     [issued_call sample_cfg sample_req]).
Proof.
  apply (generate_bad_json sample_str upstream_html sample_cfg sample_req
           502%Z (lit "Expecting value: line 1 column 1 (char 0)")).
  - vm_compute. reflexivity.
  - reflexivity.
Defined.

Lemma blank_topic_forwarded_witness :
  normalize_topic (lit "   ") = []
  /\ snd (post_generate sample_str upstream_ok sample_cfg blank_req)
     = [issued_call sample_cfg blank_req].
Proof.
  destruct (blank_topic_forwarded sample_str upstream_ok sample_cfg blank_req)
    as (H1 & H2 & _).
  - vm_compute. reflexivity.
  - vm_compute. reflexivity.
  - split; [exact H1 | exact H2].
Defined.

Lemma outbound_payload_witness :
  temperature (call_json (issued_call sample_cfg sample_req)) = 0.75%Q
  /\ max_tokens (call_json (issued_call sample_cfg sample_req)) = 3000%Z
  /\ model (call_json (issued_call sample_cfg sample_req))
     = lit "llama-3.3-70b-versatile".
Proof.
  destruct (outbound_payload sample_str upstream_ok sample_cfg sample_req
              (issued_call sample_cfg sample_req)) as (_ & H2 & H3 & H4).
  - vm_compute. left. reflexivity.
  - split; [exact H2|]. split; [exact H3 | exact H4].
Defined.

Lemma request_defaults_witness :
  messages (call_json (issued_call sample_cfg sample_req)) =
    [system_message;
     {| role := lit "user";
        content :=
          lit "Write a complete, SEO-optimized blog post about: "
            ++ quote ++ lit "remote work productivity" ++ quote ++ nl
            ++ nl
            ++ lit "TONE: informative and friendly" ++ nl
            ++ lit "TARGET LENGTH: 1000-1500 words" ++ nl
            ++ nl
            ++ template_structure |}]
  /\ messages (call_json (issued_call sample_cfg
                            (BlogRequest.make (lit "tea") (Some (lit "dry"))
                               None))) =
    [system_message;
     {| role := lit "user";
        content :=
          lit "Write a complete, SEO-optimized blog post about: "
            ++ quote ++ lit "tea" ++ quote ++ nl
            ++ nl
            ++ lit "TONE: dry" ++ nl
            ++ lit "TARGET LENGTH: 1000-1500 words" ++ nl
            ++ nl
            ++ template_structure |}].
Proof.
  split.
  - destruct (request_defaults sample_str upstream_ok sample_cfg
                (lit "Write a blog about remote work productivity") None None)
      as (_ & _ & H & _).
    apply (H (issued_call sample_cfg sample_req)).
    vm_compute. left. reflexivity.
  - destruct (request_defaults sample_str upstream_ok sample_cfg
                (lit "tea") (Some (lit "dry")) None)
      as (_ & _ & _ & H).
    apply (H (issued_call sample_cfg
                (BlogRequest.make (lit "tea") (Some (lit "dry")) None))).
    vm_compute. left. reflexivity.
Defined.

(** * Further properties *)

(** ** Stripping, continued *)

Section StrippingMore.

Lemma lstrip_idem (s : str) : lstrip (lstrip s) = lstrip s.
Proof.
  induction s as [|c s IH]; [reflexivity|].
  cbn [lstrip]. destruct (isspace c) eqn:E; [exact IH|].
  cbn [lstrip]. now rewrite E.
Qed.

Lemma rstrip_prefix (s : str) : exists b, s = rstrip s ++ b.
Proof.
  induction s as [|c s [b IH]]; [now exists []|].
  cbn [rstrip]. destruct (rstrip s) as [|x r] eqn:E.
  - destruct (isspace c).
    + now exists (c :: s).
    + now exists s.
  - exists b. cbn [app] in *. now f_equal.
Qed.

(** Stripping on the left and on the right commute. *)
Lemma rstrip_lstrip_comm (s : str) : rstrip (lstrip s) = lstrip (rstrip s).
Proof.
  induction s as [|c s IH]; [reflexivity|].
  cbn [lstrip rstrip]. destruct (isspace c) eqn:E.
  - rewrite IH. destruct (rstrip s) as [|x r]; [reflexivity|].
    cbn [lstrip]. now rewrite E.
  - cbn [rstrip]. destruct (rstrip s) as [|x r]; rewrite ?E; cbn [lstrip];
      now rewrite E.
Qed.

Lemma strip_idem (s : str) : strip (strip s) = strip s.
Proof.
  unfold strip. rewrite <- rstrip_lstrip_comm, lstrip_idem.
  apply rstrip_idem.
Qed.

Lemma strip_rstrip (s : str) : strip (rstrip s) = strip s.
Proof.
  unfold strip. rewrite <- rstrip_lstrip_comm. apply rstrip_idem.
Qed.

Lemma rstrip_app (a b : str) :
  rstrip (a ++ b) =
    match rstrip b with
    | [] => rstrip a
    | _ :: _ => a ++ rstrip b
    end.
Proof.
  induction a as [|c a IH]; [cbn [app]; now destruct (rstrip b)|].
  cbn [app rstrip]. rewrite IH. destruct (rstrip b) as [|x r]; [reflexivity|].
  now destruct a.
Qed.

(** What [strip] returns is a contiguous piece of its argument. *)
Lemma strip_infix (s : str) : exists a b, s = a ++ strip s ++ b.
Proof.
  destruct (lstrip_suffix s) as [a Ha].
  destruct (rstrip_prefix (lstrip s)) as [b Hb].
  exists a, b. unfold strip. now rewrite <- Hb.
Qed.

(** Whitespace is its own lower-case form. *)
Lemma isspace_lower_char (c : char) :
  isspace c = true -> lower_char c = [c].
Proof.
  intros H. unfold lower_char.
  destruct ((65 <=? c) && (c <=? 90))%N eqn:E1;
    [|destruct (c =? 304)%N eqn:E2; [|destruct (c =? 8490)%N eqn:E3]];
    [exfalso | exfalso | exfalso | reflexivity].
  - apply andb_true_iff in E1 as [L U].
    apply N.leb_le in L, U.
    assert (Hs : isspace c = false); [|congruence].
    unfold isspace.
    repeat match goal with
      | |- context [(?a <=? ?b)%N] => destruct (N.leb_spec a b); try lia
      | |- context [(?a =? ?b)%N] => destruct (N.eqb_spec a b); try lia
      end; reflexivity.
  - apply N.eqb_eq in E2. subst c. discriminate H.
  - apply N.eqb_eq in E3. subst c. discriminate H.
Qed.

End StrippingMore.

(** ** The prefix loop, continued *)

Section NormalizeMore.

Lemma startswith_split (s p : str) :
  startswith s p = true -> exists y, s = p ++ y.
Proof.
  revert s. induction p as [|d p IH]; intros s H; [now exists s|].
  destruct s as [|c s]; [discriminate|].
  apply startswith_cons in H as [-> H].
  destruct (IH s H) as [y ->]. now exists y.
Qed.

(** No filler prefix is the beginning of another one. *)
Lemma prefix_clash (p q y : str) :
  In p prefixes -> In q prefixes -> startswith (p ++ y) q = true -> p = q.
Proof.
  unfold prefixes. intros Hp Hq.
  cbn [In] in Hp, Hq.
  destruct Hp as [<-|[<-|[<-|[<-|[<-|[<-|[]]]]]]];
    destruct Hq as [<-|[<-|[<-|[<-|[<-|[<-|[]]]]]]];
    try reflexivity; intros H; vm_compute in H; discriminate H.
Qed.

Lemma prefixes_unique_match (s p q : str) :
  In p prefixes -> In q prefixes ->
  startswith (lower s) p = true -> startswith (lower s) q = true -> p = q.
Proof.
  intros Hp Hq H1 H2. apply startswith_split in H1 as [y Hy].
  rewrite Hy in H2. now apply (prefix_clash p q y).
Qed.

(** Where only [p] can match, the loop cuts [p] wherever it stands in the
    list. *)
Lemma strip_first_prefix_unique (ps : list str) (s p : str) :
  (forall q, In q ps -> startswith (lower s) q = true -> q = p) ->
  In p ps -> startswith (lower s) p = true ->
  strip_first_prefix ps s = strip (slice_from (length p) s).
Proof.
  induction ps as [|q ps IH]; intros Hu Hin Hp; [destruct Hin|].
  cbn [strip_first_prefix]. destruct (startswith (lower s) q) eqn:Eq.
  - now rewrite (Hu q (or_introl eq_refl) Eq).
  - apply IH; [| |exact Hp].
    + intros q' Hq'. apply Hu. now right.
    + destruct Hin as [->|Hin]; [congruence | exact Hin].
Qed.

Lemma strip_first_prefix_stripped (ps : list str) (s : str) :
  strip s = s -> strip (strip_first_prefix ps s) = strip_first_prefix ps s.
Proof.
  intros Hs. induction ps as [|q ps IH]; [exact Hs|].
  cbn [strip_first_prefix]. destruct (startswith (lower s) q); [|exact IH].
  apply strip_idem.
Qed.

Lemma strip_first_prefix_infix (ps : list str) (s : str) :
  exists a b, s = a ++ strip_first_prefix ps s ++ b.
Proof.
  induction ps as [|q ps IH].
  - exists [], []. cbn [strip_first_prefix app]. now rewrite app_nil_r.
  - cbn [strip_first_prefix]. destruct (startswith (lower s) q); [|exact IH].
    destruct (strip_infix (slice_from (length q) s)) as (a & b & Hab).
    exists (firstn (length q) s ++ a), b.
    rewrite <- app_assoc, <- Hab. unfold slice_from.
    symmetry. apply firstn_skipn.
Qed.

Lemma lower_head_space (c x : char) (pre rest : str) :
  lower (c :: pre) = x :: rest -> isspace x = false -> isspace c = false.
Proof.
  intros H Hx. destruct (isspace c) eqn:E; [|reflexivity].
  cbn [lower] in H. rewrite (isspace_lower_char c E) in H.
  injection H as -> _. congruence.
Qed.

Lemma lower_last_space (c : char) (pre p : str) :
  lower (pre ++ [c]) = p -> isspace (List.last p 0%N) = false ->
  isspace c = false.
Proof.
  intros H Hp. destruct (isspace c) eqn:E; [|reflexivity].
  rewrite lower_app in H. cbn [lower] in H.
  rewrite (isspace_lower_char c E), app_nil_r in H.
  subst p. rewrite List.last_last in Hp. congruence.
Qed.

Lemma prefixes_ends :
  Forall (fun p => match p with
                   | x :: _ => isspace x = false
                   | [] => False
                   end /\ isspace (List.last p 0%N) = false) prefixes.
Proof. repeat constructor. Qed.

(** A string whose lower-case form is a filler prefix has no whitespace at
    either end, so stripping leaves it in place in front of what follows. *)
Lemma strip_after_prefix (p pre s : str) :
  In p prefixes -> lower pre = p -> strip (pre ++ s) = pre ++ rstrip s.
Proof.
  intros Hin Hlow.
  pose proof prefixes_ends as He. rewrite List.Forall_forall in He.
  destruct (He p Hin) as [Hhd Hlast].
  destruct pre as [|c pre]; [cbn in Hlow; subst p; destruct Hhd|].
  destruct p as [|x p]; [destruct Hhd|].
  pose proof (lower_head_space c x pre p Hlow Hhd) as Hc.
  unfold strip. cbn [app lstrip]. rewrite Hc.
  change (c :: pre ++ s) with ((c :: pre) ++ s).
  assert (Hfix : rstrip (c :: pre) = c :: pre).
  { destruct (@exists_last _ (c :: pre)) as (pre0 & z & Hz); [discriminate|].
    rewrite Hz in *. rewrite rstrip_app. cbn [rstrip].
    now rewrite (lower_last_space z pre0 (x :: p) Hlow Hlast). }
  rewrite rstrip_app, Hfix.
  destruct (rstrip s); [now rewrite app_nil_r | reflexivity].
Qed.

Lemma existsb_false {A} (f : A -> bool) (l : list A) :
  existsb f l = false -> forall x, In x l -> f x = false.
Proof.
  intros H x Hx. destruct (f x) eqn:E; [|reflexivity].
  assert (existsb f l = true) by (apply existsb_exists; eauto).
  congruence.
Qed.

(** X1.  The normalised topic has no whitespace left at either end:
    stripping it again changes nothing. *)
Theorem normalize_topic_stripped (raw : str) :
  strip (normalize_topic raw) = normalize_topic raw.
Proof.
  unfold normalize_topic. apply strip_first_prefix_stripped, strip_idem.
Qed.

(** X2.  The normalised topic is a contiguous piece of the submitted topic:
    nothing is rewritten, the case of what remains is kept, and the result is
    never longer than the input. *)
Theorem normalize_topic_infix (raw : str) :
  (exists a b, raw = a ++ normalize_topic raw ++ b)
  /\ List.length (normalize_topic raw) <= List.length raw.
Proof.
  assert (H : exists a b, raw = a ++ normalize_topic raw ++ b).
  { unfold normalize_topic.
    destruct (strip_infix raw) as (a & b & Hab).
    destruct (strip_first_prefix_infix prefixes (strip raw)) as (a' & b' & H').
    exists (a ++ a'), (b' ++ b).
    rewrite Hab at 1. rewrite H' at 1.
    now rewrite <- !app_assoc. }
  split; [exact H|].
  destruct H as (a & b & H).
  apply (f_equal (@List.length N)) in H. rewrite !length_app in H. lia.
Qed.

(** X3.  Whatever follows a filler prefix, in any mix of upper and lower
    case, is returned stripped: the prefix is cut also when the text goes on
    without a space, and a topic that is only a prefix becomes empty. *)
Theorem normalize_topic_cuts_prefix (p pre s : str) :
  In p prefixes ->
  lower pre = p ->
  normalize_topic (pre ++ s) = strip s.
Proof.
  intros Hin Hlow.
  pose proof prefixes_plain as Hpl. rewrite List.Forall_forall in Hpl.
  unfold normalize_topic. rewrite (strip_after_prefix p pre s Hin Hlow).
  assert (Hm : startswith (lower (pre ++ rstrip s)) p = true)
    by (rewrite lower_app, Hlow; apply startswith_app).
  rewrite (strip_first_prefix_unique prefixes _ p); [| |exact Hin|exact Hm].
  - rewrite <- (lower_plain_length pre p (Hpl p Hin) Hlow).
    unfold slice_from. rewrite drop_app_length. apply strip_rstrip.
  - intros q Hq Hqm. symmetry.
    now apply (prefixes_unique_match (pre ++ rstrip s)).
Qed.

(** X4.  At most one filler prefix matches a topic, so the order of the
    list does not matter: the loop gives the same result on every
    rearrangement of the six prefixes. *)
Theorem prefix_order_irrelevant (ps : list str) (s : str) :
  Permutation ps prefixes ->
  strip_first_prefix ps s = strip_first_prefix prefixes s.
Proof.
  intros Hperm.
  destruct (existsb (startswith (lower s)) prefixes) eqn:E.
  - apply existsb_exists in E as (p & Hin & Hm).
    assert (Hu : forall l, (forall q, In q l -> In q prefixes) ->
                 forall q, In q l -> startswith (lower s) q = true -> q = p).
    { intros l Hl q Hq Hqm. symmetry.
      apply (prefixes_unique_match s); auto. }
    rewrite (strip_first_prefix_unique ps s p);
      [rewrite (strip_first_prefix_unique prefixes s p)| | |]; auto.
    + apply (Hu prefixes). auto.
    + apply (Hu ps). intros q. apply Permutation_in. exact Hperm.
    + apply (Permutation_in p (Permutation_sym Hperm) Hin).
  - pose proof (existsb_false _ _ E) as Hno.
    rewrite !strip_first_prefix_none; auto.
    intros q Hq. apply Hno. apply (Permutation_in q Hperm Hq).
Qed.

End NormalizeMore.

Lemma normalize_topic_cuts_prefix_witness :
  normalize_topic (lit "BLOG Aboutface  ") = lit "face"
  /\ normalize_topic (lit "Write About") = [].
Proof.
  split.
  - apply (normalize_topic_cuts_prefix (lit "blog about") (lit "BLOG About")
             (lit "face  ")).
    + right. right. left. reflexivity.
    + reflexivity.
  - apply (normalize_topic_cuts_prefix (lit "write about") (lit "Write About")
             []).
    + right. right. right. left. reflexivity.
    + reflexivity.
Defined.

Lemma prefix_order_irrelevant_witness :
  strip_first_prefix (rev prefixes) (lit "Blog on tea") = lit "tea".
Proof.
  apply (prefix_order_irrelevant (rev prefixes) (lit "Blog on tea")).
  apply Permutation_sym, Permutation_rev.
Defined.

(** ** Rendering a body *)

Section Rendering.

Lemma finite_dict_insert (k : str) (v : pyval) (d : gmap str pyval) :
  d !! k = None ->
  finite (PDict (<[ k := v ]> d)) = finite v && finite (PDict d).
Proof.
  intros H. cbn [finite]. rewrite map_fold_insert_L; [reflexivity| |exact H].
  intros. now destruct (finite z1), (finite z2), y.
Qed.

Lemma utf8_dict_insert (k : str) (v : pyval) (d : gmap str pyval) :
  d !! k = None ->
  utf8 (PDict (<[ k := v ]> d)) = encodable k && utf8 v && utf8 (PDict d).
Proof.
  intros H. cbn [utf8]. rewrite map_fold_insert_L; [reflexivity| |exact H].
  intros.
  now destruct (encodable j1), (encodable j2), (utf8 z1), (utf8 z2), y.
Qed.

Lemma content_is_not_topic : lit "content" <> lit "topic".
Proof. discriminate. Qed.

(** The body of a generation renders exactly when the content has only
    finite floats and encodable strings and the topic is encodable. *)
Lemma render_body (text : pyval) (topic : str) :
  let body : gmap str pyval :=
    <[ lit "content" := text ]> {[ lit "topic" := PStr topic ]} in
  render body =
    if negb (finite text) then Raise (ValueError (PDict body))
    else if negb (utf8 text && encodable topic)
         then Raise (UnicodeEncodeError (PDict body))
    else Return tt.
Proof.
  pose proof content_is_not_topic as Hne.
  cbv zeta. unfold render.
  rewrite finite_dict_insert, utf8_dict_insert
    by (now rewrite lookup_singleton_ne).
  rewrite <- !insert_empty.
  rewrite finite_dict_insert, utf8_dict_insert by apply lookup_empty.
  cbn [finite utf8]. rewrite !map_fold_empty, !andb_true_r.
  change (encodable (lit "content")) with true.
  change (encodable (lit "topic")) with true.
  reflexivity.
Qed.

Lemma encodable_app (a b : str) :
  encodable (a ++ b) = encodable a && encodable b.
Proof. apply forallb_app. Qed.

(** Normalising an encodable topic leaves it encodable. *)
Lemma encodable_normalize (raw : str) :
  encodable raw = true -> encodable (normalize_topic raw) = true.
Proof.
  intros H. unfold normalize_topic.
  destruct (strip_infix raw) as (a & b & Hab).
  destruct (strip_first_prefix_infix prefixes (strip raw)) as (a' & b' & H').
  rewrite Hab, H' in H. rewrite !encodable_app, !andb_true_iff in H.
  tauto.
Qed.

End Rendering.

(** ** The handler, continued *)

Section HandlerMore.

Variable py_str : exn -> str.
Variable upstream : nat -> OutboundCall -> result Response.
Variable cfg : Config.

Abbreviation post' := (post_generate py_str upstream cfg).

#[local] Arguments normalize_topic : simpl never.
#[local] Arguments build_prompt : simpl never.

(** X5.  An API key that is set to the empty string counts as missing: the
    request is answered 500 with "API key not configured on server" and no
    outbound call is made. *)
Theorem empty_key_rejected (environ : gmap str str) (req : BlogRequest.t) :
  environ !! lit "GROQ_API_KEY" = Some ([] : str) ->
  post_generate py_str upstream (load_config environ) req =
    (error_response 500 (PStr (lit "API key not configured on server")), []).
Proof.
  intros Hk. unfold post_generate, generate_blog, load_config.
  cbn [GROQ_API_KEY]. rewrite Hk. reflexivity.
Qed.

(** X6.  A request makes at most one outbound call, and which call it makes
    does not depend on how upstream answers: no path of the handler, failing
    or not, calls a second time. *)
Theorem at_most_one_call (py_str2 : exn -> str)
    (upstream2 : nat -> OutboundCall -> result Response)
    (req : BlogRequest.t) :
  snd (post' req) = snd (post_generate py_str2 upstream2 cfg req)
  /\ List.length (snd (post' req)) <= 1.
Proof.
  rewrite !post_log. destruct (not_key (GROQ_API_KEY cfg)); cbn; auto.
Qed.

(** X7.  Whatever upstream does, the caller only ever sees status 200, 500
    or 504: no other status code leaves the handler. *)
Theorem status_classes (req : BlogRequest.t) :
  http_status (fst (post' req)) = 200%Z
  \/ http_status (fst (post' req)) = 500%Z
  \/ http_status (fst (post' req)) = 504%Z.
Proof.
  destruct (not_key (GROQ_API_KEY cfg)) eqn:Hk.
  - unfold post_generate. rewrite run_without_key by exact Hk. cbn. auto.
  - rewrite post_with_key by exact Hk. cbn [fst].
    repeat case_match; try (right; apply caught_status). now left.
Qed.

(** X8.  A transport failure that is not a timeout is answered 500 with the
    description of the exception, after the one call. *)
Theorem transport_error (req : BlogRequest.t) (m : str) :
  not_key (GROQ_API_KEY cfg) = false ->
  upstream 0 (issued_call cfg req) = Raise (RequestError m) ->
  post' req =
    (error_response 500 (PStr (py_str (RequestError m))),
     [issued_call cfg req]).
Proof.
  intros Hk Hup. rewrite post_with_key by exact Hk. now rewrite Hup.
Qed.

(** X9.  On an upstream 200 the answer is decided by the lookup
    [data["choices"][0]["message"]["content"]] and by the rendering of the
    body.  When a subscript fails the caller gets 500 with the description of
    that error.  When the lookup succeeds and the found value, of whatever
    JSON type, has only finite floats and encodable strings, and the
    normalised topic is encodable, the value is returned as [content] with
    status 200.  When the lookup succeeds and the body cannot be rendered the
    caller gets 500. *)
Theorem ok_status_outcome (req : BlogRequest.t) (data : pyval) :
  not_key (GROQ_API_KEY cfg) = false ->
  upstream 0 (issued_call cfg req)
    = Return {| status_code := 200; json := Return data |} ->
  (forall e,
      completion_text data = Raise e ->
      post' req =
        (error_response 500 (PStr (py_str e)), [issued_call cfg req]))
  /\ (forall text,
        completion_text data = Return text ->
        finite text = true ->
        utf8 text = true ->
        encodable (normalize_topic (BlogRequest.topic req)) = true ->
        post' req =
          (success_response text (normalize_topic (BlogRequest.topic req)),
           [issued_call cfg req]))
  /\ (forall text,
        completion_text data = Return text ->
        finite text && utf8 text
          && encodable (normalize_topic (BlogRequest.topic req)) = false ->
        exists detail,
          post' req = (error_response 500 detail, [issued_call cfg req])).
Proof.
  intros Hk Hup. rewrite post_with_key by exact Hk. rewrite Hup. cbn.
  split; [|split].
  - intros e E. rewrite E.
    now destruct (completion_text_raises data e E)
      as [[k ->]|[[t ->]|(t & i & ->)]].
  - intros text E Hf Hu Ht. rewrite E. cbv zeta.
    now rewrite render_body, Hf, Hu, Ht.
  - intros text E H. rewrite E. cbv zeta. rewrite render_body.
    destruct (finite text); cbn [negb]; [|eexists; reflexivity].
    cbn [andb] in H. rewrite H. eexists. reflexivity.
Qed.

(** C4.  With a key configured, for a request whose topic is encodable text,
    when the upstream call returns status 200 and a body whose first choice
    has a message with encodable text as content, the response is 200 with
    body [{content, topic}]: [content] is that text and [topic] the
    normalised topic. *)
Theorem generate_success (req : BlogRequest.t) (d choice msg : gmap str pyval)
    (others : list pyval) (text : str) :
  not_key (GROQ_API_KEY cfg) = false ->
  upstream 0 (issued_call cfg req)
    = Return {| status_code := 200; json := Return (PDict d) |} ->
  d !! lit "choices" = Some (PList (PDict choice :: others)) ->
  choice !! lit "message" = Some (PDict msg) ->
  msg !! lit "content" = Some (PStr text) ->
  encodable text = true ->
  encodable (BlogRequest.topic req) = true ->
  post' req =
    ({| http_status := 200;
        http_body :=
          PDict (<[ lit "content" := PStr text ]>
                   {[ lit "topic" :=
                        PStr (normalize_topic (BlogRequest.topic req)) ]});
        http_headers := {[ lit "Access-Control-Allow-Origin" := lit "*" ]} |},
     [issued_call cfg req]).
Proof.
  intros Hk Hup Hd Hc Hm Ht Hq.
  rewrite post_with_key by exact Hk. rewrite Hup. cbn.
  unfold completion_text, py_getitem. rewrite Hd. cbn. rewrite Hc, Hm.
  cbv zeta. rewrite render_body. cbn [finite utf8 negb].
  now rewrite Ht, (encodable_normalize _ Hq).
Qed.

(** A completion whose text holds a lone surrogate cannot be rendered: the
    caller gets 500, although upstream answered 200 with a text content. *)
Lemma unencodable_content (req : BlogRequest.t) (d choice msg : gmap str pyval)
    (others : list pyval) (text : str) :
  not_key (GROQ_API_KEY cfg) = false ->
  upstream 0 (issued_call cfg req)
    = Return {| status_code := 200; json := Return (PDict d) |} ->
  d !! lit "choices" = Some (PList (PDict choice :: others)) ->
  choice !! lit "message" = Some (PDict msg) ->
  msg !! lit "content" = Some (PStr text) ->
  encodable text = false ->
  http_status (fst (post' req)) = 500%Z.
Proof.
  intros Hk Hup Hd Hc Hm Ht.
  rewrite post_with_key by exact Hk. rewrite Hup. cbn.
  unfold completion_text, py_getitem. rewrite Hd. cbn. rewrite Hc, Hm.
  cbv zeta. rewrite render_body. cbn [finite utf8 negb].
  now rewrite Ht.
Qed.

(** X10.  An upstream 200 whose body is an object without "choices" is
    answered 500, the detail being the description of the [KeyError] for
    that key. *)
Theorem missing_choices (req : BlogRequest.t) (d : gmap str pyval) :
  not_key (GROQ_API_KEY cfg) = false ->
  upstream 0 (issued_call cfg req)
    = Return {| status_code := 200; json := Return (PDict d) |} ->
  d !! lit "choices" = None ->
  post' req =
    (error_response 500 (PStr (py_str (KeyError (PStr (lit "choices"))))),
     [issued_call cfg req]).
Proof.
  intros Hk Hup Hd. rewrite post_with_key by exact Hk. rewrite Hup. cbn.
  unfold completion_text, py_getitem. now rewrite Hd.
Qed.

(** X11.  An upstream 200 with an empty list of choices is answered 500, the
    detail being the description of the [IndexError] of a list. *)
Theorem empty_choices (req : BlogRequest.t) (d : gmap str pyval) :
  not_key (GROQ_API_KEY cfg) = false ->
  upstream 0 (issued_call cfg req)
    = Return {| status_code := 200; json := Return (PDict d) |} ->
  d !! lit "choices" = Some (PList []) ->
  post' req =
    (error_response 500 (PStr (py_str (IndexError (lit "list")))),
     [issued_call cfg req]).
Proof.
  intros Hk Hup Hd. rewrite post_with_key by exact Hk. rewrite Hup. cbn.
  unfold completion_text, py_getitem. now rewrite Hd.
Qed.

(** X12.  A non-200 answer whose "error" member is not an object, for
    instance a plain string or null, is answered 500 with the description of
    the [AttributeError] met while reading the message: the error of an
    object of that member's type that has no attribute [get]. *)
Theorem error_not_object (req : BlogRequest.t) (sc : Z)
    (d : gmap str pyval) (v : pyval) :
  not_key (GROQ_API_KEY cfg) = false ->
  upstream 0 (issued_call cfg req)
    = Return {| status_code := sc; json := Return (PDict d) |} ->
  sc <> 200%Z ->
  d !! lit "error" = Some v ->
  (forall e, v <> PDict e) ->
  post' req =
    (error_response 500
       (PStr (py_str (AttributeError (type_name v) (lit "get")))),
     [issued_call cfg req]).
Proof.
  intros Hk Hup Hsc Hd Hv. rewrite post_with_key by exact Hk. rewrite Hup.
  cbn. apply Z.eqb_neq in Hsc. rewrite Hsc.
  unfold rejection. cbn. rewrite Hd. cbn.
  destruct v; try reflexivity. now destruct (Hv d0).
Qed.

(** X13.  Status 200 is only sent for a real completion: when the caller
    gets 200, a key is configured, upstream answered 200 with a JSON body,
    the lookup of the first completion's content succeeded, and the body
    sent holds exactly that content and the normalised topic. *)
Theorem success_sound (req : BlogRequest.t) :
  http_status (fst (post' req)) = 200%Z ->
  not_key (GROQ_API_KEY cfg) = false
  /\ exists response data text,
       upstream 0 (issued_call cfg req) = Return response
       /\ status_code response = 200%Z
       /\ json response = Return data
       /\ completion_text data = Return text
       /\ fst (post' req) =
            success_response text (normalize_topic (BlogRequest.topic req)).
Proof.
  intros H. destruct (not_key (GROQ_API_KEY cfg)) eqn:Hk.
  - unfold post_generate in H. rewrite run_without_key in H by exact Hk.
    discriminate H.
  - split; [reflexivity|].
    rewrite post_with_key in * by exact Hk. cbn [fst] in *.
    assert (Hc : forall e, http_status (caught py_str e) <> 200%Z)
      by (intros e; destruct (caught_status py_str e) as [-> | ->];
          discriminate).
    destruct (upstream 0 (issued_call cfg req)) as [response|e];
      [|now destruct (Hc e)].
    destruct (json response) as [data|e] eqn:Hj; [|now destruct (Hc e)].
    destruct (status_code response =? 200)%Z eqn:Hs;
      [|now destruct (Hc _ H)].
    destruct (completion_text data) as [text|e] eqn:Ht;
      [|now destruct (Hc e)].
    cbv zeta in *.
    destruct (render _) as [[]|e]; [|now destruct (Hc e)].
    exists response, data, text. apply Z.eqb_eq in Hs. auto.
Qed.

(** X14.  Every outbound call goes to the chat-completion URL on a client
    with a 60 second timeout, and carries exactly two headers: the API key
    of the environment as bearer token and the JSON content type. *)
Theorem call_target (environ : gmap str str) (k : str)
    (req : BlogRequest.t) (call : OutboundCall) :
  environ !! lit "GROQ_API_KEY" = Some k ->
  In call (snd (post_generate py_str upstream (load_config environ) req)) ->
  call_url call = lit "https://api.groq.com/openai/v1/chat/completions"
  /\ (call_timeout call == 60)%Q
  /\ call_headers call =
       <[ lit "Authorization" := lit "Bearer " ++ k ]>
         {[ lit "Content-Type" := lit "application/json" ]}.
Proof.
  intros Hk Hin. apply post_calls in Hin. subst call.
  unfold issued_call, headers, load_config. cbn. rewrite Hk.
  repeat split; reflexivity.
Qed.

End HandlerMore.

(** ** The prompt *)

Section Prompt.

(** X15.  With the other two fields fixed, the prompt determines the topic,
    the tone and the length: two requests that differ in one field never
    share a prompt. *)
Theorem build_prompt_injective (topic topic' tone tone' length length' : str) :
  (build_prompt topic tone length = build_prompt topic' tone length ->
   topic = topic')
  /\ (build_prompt topic tone length = build_prompt topic tone' length ->
      tone = tone')
  /\ (build_prompt topic tone length = build_prompt topic tone length' ->
      length = length').
Proof.
  unfold build_prompt. repeat split; intros H.
  - do 2 apply app_inv_head in H. now apply app_inv_tail in H.
  - do 7 apply app_inv_head in H. now apply app_inv_tail in H.
  - do 10 apply app_inv_head in H. now apply app_inv_tail in H.
Qed.

(** X16.  The fields are put into the template as they are, without
    escaping: a tone that carries a line break and a "TARGET LENGTH: " line
    yields the prompt of the request that has that text in its length
    instead, so the prompt does not determine the three fields together. *)
Theorem build_prompt_unescaped (topic a b c : str) :
  build_prompt topic (a ++ nl ++ lit "TARGET LENGTH: " ++ b) c
  = build_prompt topic a (b ++ nl ++ lit "TARGET LENGTH: " ++ c).
Proof.
  unfold build_prompt. now rewrite <- !app_assoc.
Qed.

End Prompt.

(** ** Instances, continued *)

Lemma empty_key_rejected_witness :
  post_generate sample_str upstream_ok
    (load_config {[ lit "GROQ_API_KEY" := [] ]}) sample_req =
    (error_response 500 (PStr (lit "API key not configured on server")), []).
Proof.
  apply (empty_key_rejected sample_str upstream_ok
           {[ lit "GROQ_API_KEY" := [] ]} sample_req).
  vm_compute. reflexivity.
Defined.

Lemma transport_error_witness :
  post_generate sample_str upstream_down sample_cfg sample_req =
    (error_response 500 (PStr (lit "All connection attempts failed")),
     [issued_call sample_cfg sample_req]).
Proof.
  apply (transport_error sample_str upstream_down sample_cfg sample_req
           (lit "All connection attempts failed")).
  - vm_compute. reflexivity.
  - reflexivity.
Defined.

Lemma ok_status_outcome_witness :
  post_generate sample_str upstream_ok sample_cfg sample_req =
    (success_response (PStr (lit "# Remote work"))
       (lit "remote work productivity"),
     [issued_call sample_cfg sample_req]).
Proof.
  destruct (ok_status_outcome sample_str upstream_ok sample_cfg sample_req
              (PDict {[ lit "choices" :=
                 PList [PDict {[ lit "message" :=
                   PDict {[ lit "content" :=
                     PStr (lit "# Remote work") ]} ]}] ]}))
    as (_ & H & _).
  - vm_compute. reflexivity.
  - reflexivity.
  - apply (H (PStr (lit "# Remote work"))); vm_compute; reflexivity.
Defined.

Lemma generate_success_witness :
  post_generate sample_str upstream_ok sample_cfg sample_req =
    ({| http_status := 200;
        http_body :=
          PDict (<[ lit "content" := PStr (lit "# Remote work") ]>
                   {[ lit "topic" := PStr (lit "remote work productivity") ]});
        http_headers := {[ lit "Access-Control-Allow-Origin" := lit "*" ]} |},
     [issued_call sample_cfg sample_req]).
Proof.
  apply (generate_success sample_str upstream_ok sample_cfg sample_req
           {[ lit "choices" :=
                PList [PDict {[ lit "message" :=
                  PDict {[ lit "content" := PStr (lit "# Remote work") ]} ]}] ]}
           {[ lit "message" :=
                PDict {[ lit "content" := PStr (lit "# Remote work") ]} ]}
           {[ lit "content" := PStr (lit "# Remote work") ]}
           [] (lit "# Remote work")).
  - vm_compute. reflexivity.
  - reflexivity.
  - vm_compute. reflexivity.
  - vm_compute. reflexivity.
  - vm_compute. reflexivity.
  - vm_compute. reflexivity.
  - vm_compute. reflexivity.
Defined.

Lemma missing_choices_witness :
  post_generate sample_str upstream_no_choices sample_cfg sample_req =
    (error_response 500 (PStr (lit "KeyError")),
     [issued_call sample_cfg sample_req]).
Proof.
  apply (missing_choices sample_str upstream_no_choices sample_cfg sample_req
           {[ lit "id" := PStr (lit "cmpl-1") ]}).
  - vm_compute. reflexivity.
  - reflexivity.
  - vm_compute. reflexivity.
Defined.

Lemma empty_choices_witness :
  post_generate sample_str upstream_empty_choices sample_cfg sample_req =
    (error_response 500 (PStr (lit "list index out of range")),
     [issued_call sample_cfg sample_req]).
Proof.
  apply (empty_choices sample_str upstream_empty_choices sample_cfg
           sample_req {[ lit "choices" := PList [] ]}).
  - vm_compute. reflexivity.
  - reflexivity.
  - vm_compute. reflexivity.
Defined.

Lemma error_not_object_witness :
  post_generate sample_str upstream_error_string sample_cfg sample_req =
    (error_response 500
       (PStr (lit "'str' object has no attribute 'get'")),
     [issued_call sample_cfg sample_req]).
Proof.
  apply (error_not_object sample_str upstream_error_string sample_cfg
           sample_req 401%Z
           {[ lit "error" := PStr (lit "invalid api key") ]}
           (PStr (lit "invalid api key"))).
  - vm_compute. reflexivity.
  - reflexivity.
  - discriminate.
  - vm_compute. reflexivity.
  - discriminate.
Defined.

Lemma success_sound_witness :
  not_key (GROQ_API_KEY sample_cfg) = false
  /\ exists response data text,
       upstream_ok 0 (issued_call sample_cfg sample_req) = Return response
       /\ status_code response = 200%Z
       /\ json response = Return data
       /\ completion_text data = Return text
       /\ fst (post_generate sample_str upstream_ok sample_cfg sample_req) =
            success_response text
              (normalize_topic (BlogRequest.topic sample_req)).
Proof.
  apply (success_sound sample_str upstream_ok sample_cfg sample_req).
  vm_compute. reflexivity.
Defined.

Lemma call_target_witness :
  call_url (issued_call sample_cfg sample_req)
    = lit "https://api.groq.com/openai/v1/chat/completions"
  /\ (call_timeout (issued_call sample_cfg sample_req) == 60)%Q
  /\ call_headers (issued_call sample_cfg sample_req) =
       <[ lit "Authorization" := lit "Bearer gsk_test" ]>
         {[ lit "Content-Type" := lit "application/json" ]}.
Proof.
  apply (call_target sample_str upstream_ok sample_environ (lit "gsk_test")
           sample_req (issued_call sample_cfg sample_req)).
  - vm_compute. reflexivity.
  - vm_compute. left. reflexivity.
Defined.

Lemma build_prompt_injective_witness :
  lit "tea" = lit "tea" /\ lit "dry" = lit "dry" /\ lit "300" = lit "300".
Proof.
  destruct (build_prompt_injective (lit "tea") (lit "tea") (lit "dry")
              (lit "dry") (lit "300") (lit "300")) as (H1 & H2 & H3).
  split; [apply H1; reflexivity|].
  split; [apply H2; reflexivity | apply H3; reflexivity].
Defined.
